(** * Heater controller: the two Arduino sketches of the repository

    The repository holds two variants of one five-state heater controller:

    - the LM75 sketch (I2C sensor, heater on pin 8, warning LED on pin 13,
      target 40.0, hysteresis 2.0, overheat 50.0), module [LM75];
    - the TMP36 sketch [Sourcecode1.cpp] (analog sensor, heater on pin 8,
      target 30.0, overheat 40.0), module [TMP36].

    Modelling choices.

    - Globals ([currentState], [stateStartTime]), the output pins and the
      millisecond timer live in one [World] record that every function
      threads through a small state monad [M].
    - [millis()] is an oracle: the k-th call of a run returns [clock k]
      reduced to 32 bits ([unsigned long]).  Nothing is assumed about the
      oracle, so time spent in [delay], on the bus or in the UART is covered.
    - A [float] is modelled by the rational it denotes.  Every value the
      sketches compare is finite (a half-degree count, the sentinel, or an
      ADC conversion), the constants and their differences are exact, and
      comparison of finite floats is comparison of their values.
    - The width of [int] is a parameter ([IntWidth]): the sketches name no
      board, and [int] has 16 bits on the AVR cores and 32 bits on the
      others.  It only matters where the LM75 register is decoded.
    - [trace] is a ghost log of the writes to the pins and to the two
      globals, newest first.
    - [Serial] output only writes to the UART and is left out. *)

From Stdlib Require Import ZArith QArith List Bool Lia Lqa Classical.
Import ListNotations.

Open Scope Z_scope.

(** ** Shared data model *)

(** [enum State] / [enum HeaterState]: the same five constants in both
    sketches. *)
Inductive State : Type :=
| IDLE
| HEATING
| STABILIZING
| TARGET_REACHED
| OVERHEAT.

Definition State_eqb (a b : State) : bool :=
  match a, b with
  | IDLE, IDLE
  | HEATING, HEATING
  | STABILIZING, STABILIZING
  | TARGET_REACHED, TARGET_REACHED
  | OVERHEAT, OVERHEAT => true
  | _, _ => false
  end.

(** Digital output level. *)
Inductive Level : Type := LOW | HIGH.

(** Width of the C type [int] on the board the sketch is built for. *)
Inductive IntWidth : Type := Int16 | Int32.

Definition int_bits (int : IntWidth) : Z :=
  match int with
  | Int16 => 16
  | Int32 => 32
  end.

(** Ghost events: a write to a pin, to [currentState], to
    [stateStartTime]. *)
Inductive Event : Type :=
| PinWrite (pin : Z) (level : Level)
| StateWrite (newState : State)
| StampWrite (stamp : Z).

Record World : Type := mkWorld {
  currentState : State;
  stateStartTime : Z;
  pins : Z -> Level;
  clock : nat -> Z;
  reads : nat;
  trace : list Event
}.

(** State of the board after reset: the globals' initialisers, every port
    bit low, no timer reading made yet. *)
Definition boot (clk : nat -> Z) : World :=
  mkWorld IDLE 0 (fun _ => LOW) clk 0%nat [].

(** ** The state monad *)

Definition M (A : Type) : Type := World -> A * World.

Definition ret {A : Type} (a : A) : M A := fun w => (a, w).

Definition bind {A B : Type} (m : M A) (f : A -> M B) : M B :=
  fun w => let (a, w') := m w in f a w'.

Notation "x <- m ;; k" := (bind m (fun x => k))
  (at level 61, m at next level, right associativity).
Notation "m ;; k" := (bind m (fun _ => k))
  (at level 61, right associativity).

Definition exec {A : Type} (m : M A) (w : World) : World := snd (m w).

Definition when (b : bool) (m : M unit) : M unit :=
  if b then m else ret tt.

(** ** Arduino primitives *)

Definition wrap32 (x : Z) : Z := x mod 2 ^ 32.

(** [millis()]: next reading of the timer, as an [unsigned long]. *)
Definition millis : M Z :=
  fun w =>
    (wrap32 (clock w (reads w)),
     mkWorld (currentState w) (stateStartTime w) (pins w)
             (clock w) (S (reads w)) (trace w)).

(** [digitalWrite(pin, level)]. *)
Definition digitalWrite (pin : Z) (level : Level) : M unit :=
  fun w =>
    (tt,
     mkWorld (currentState w) (stateStartTime w)
             (fun p => if Z.eqb p pin then level else pins w p)
             (clock w) (reads w) (PinWrite pin level :: trace w)).

(** [delay(ms)] busy-waits; the time it takes shows in later readings of
    the timer oracle. *)
Definition delay (ms : Z) : M unit := ret tt.

Definition get_currentState : M State := fun w => (currentState w, w).
Definition get_stateStartTime : M Z := fun w => (stateStartTime w, w).

Definition set_currentState (s : State) : M unit :=
  fun w =>
    (tt,
     mkWorld s (stateStartTime w) (pins w) (clock w) (reads w)
             (StateWrite s :: trace w)).

Definition set_stateStartTime (t : Z) : M unit :=
  fun w =>
    (tt,
     mkWorld (currentState w) t (pins w) (clock w) (reads w)
             (StampWrite t :: trace w)).

(** [changeState]: identical in both sketches up to the [Serial] log.
<<
    currentState = newState;
    stateStartTime = millis();
>> *)
Definition changeState (newState : State) : M unit :=
  set_currentState newState ;;
  t <- millis ;;
  set_stateStartTime t.

(** Float comparisons [a < b], [a >= b], [a > b]. *)
Definition Qltb (a b : Q) : bool := negb (Qle_bool b a).
Definition Qgeb (a b : Q) : bool := Qle_bool b a.
Definition Qgtb (a b : Q) : bool := negb (Qle_bool a b).

(** [millis() - stateStartTime]: unsigned 32-bit difference. *)
Definition elapsed (now start : Z) : Z := wrap32 (now - start).

(** ** The LM75 sketch *)

Module LM75.

Definition heaterPin : Z := 8.
Definition ledPin : Z := 13.

Definition targetTemp : Q := 40.
Definition hysteresis : Q := 2.
Definition overheatTemp : Q := 50.
Definition stabilizingTime : Z := 5000.

(** Value of [x] in a signed two's complement type of [bits] bits. *)
Definition wrap_signed (bits x : Z) : Z :=
  (x + 2 ^ (bits - 1)) mod 2 ^ bits - 2 ^ (bits - 1).

(** [int16_t tempRaw = ((msb << 8) | lsb) >> 7;]
    The bytes are promoted to [int]: the left shift wraps at the width of
    [int] (it only can with 16 bits), the right shift of a negative value
    is arithmetic, and the result is stored in an [int16_t]. *)
Definition tempRaw (int : IntWidth) (msb lsb : Z) : Z :=
  wrap_signed 16
    (Z.shiftr (wrap_signed (int_bits int) (Z.lor (Z.shiftl msb 8) lsb)) 7).

(** [readTemperature].  [rx] is what the sensor delivered into the Wire
    receive buffer after [requestFrom(LM75_ADDRESS, 2)]; with fewer than two
    bytes available the function returns the value [-100.0]. *)
Definition readTemperature (int : IntWidth) (rx : list Z) : Q :=
  match rx with
  | b0 :: b1 :: _ =>
      let msb := b0 mod 256 in
      let lsb := b1 mod 256 in
      inject_Z (tempRaw int msb lsb) * (1 # 2)
  | _ => - (100)
  end%Q.

Definition controlHeater (turnOn : bool) : M unit :=
  if turnOn then digitalWrite heaterPin HIGH
  else digitalWrite heaterPin LOW.

(** [setup]: both pins become outputs (level low after reset), then
    [changeState(IDLE)]. *)
Definition setup : M unit := changeState IDLE.

(** The [switch (currentState)] of [loop]. *)
Definition handle_state (temp : Q) : M unit :=
  s <- get_currentState ;;
  match s with
  | IDLE =>
      when (Qltb temp (targetTemp - hysteresis)) (changeState HEATING)
  | HEATING =>
      controlHeater true ;;
      when (Qgeb temp targetTemp) (changeState STABILIZING)
  | STABILIZING =>
      controlHeater false ;;
      now <- millis ;;
      start <- get_stateStartTime ;;
      when (Z.leb stabilizingTime (elapsed now start))
           (changeState TARGET_REACHED)
  | TARGET_REACHED =>
      controlHeater false ;;
      when (Qltb temp (targetTemp - hysteresis)) (changeState HEATING)
  | OVERHEAT =>
      controlHeater false ;;
      digitalWrite ledPin HIGH ;;
      when (Qltb temp targetTemp)
           (digitalWrite ledPin LOW ;; changeState IDLE)
  end.

(** The global overheat check that follows the [switch]. *)
Definition overheat_check (temp : Q) : M unit :=
  s <- get_currentState ;;
  when (Qgeb temp overheatTemp && negb (State_eqb s OVERHEAT))
       (changeState OVERHEAT).

(** [loop] once the temperature has been read. *)
Definition loop_body (temp : Q) : M unit :=
  handle_state temp ;;
  overheat_check temp ;;
  delay 500.

(** [loop]: one iteration, the sensor delivering [rx]. *)
Definition loop (int : IntWidth) (rx : list Z) : M unit :=
  loop_body (readTemperature int rx).

(** [n] iterations at one temperature. *)
Fixpoint run (n : nat) (temp : Q) (w : World) : World :=
  match n with
  | O => w
  | S k => exec (loop_body temp) (run k temp w)
  end.

End LM75.

(** ** The TMP36 sketch *)

Module TMP36.

Definition HEATER_PIN : Z := 8.

Definition targetTemp : Q := 30.
Definition overheatTemp : Q := 40.
Definition stabilizingTime : Z := 5000.

(** [setup]: heater pin low, then [changeState(IDLE)]. *)
Definition setup : M unit :=
  digitalWrite HEATER_PIN LOW ;;
  changeState IDLE.

(** [loop] once [readTemperature()] has produced [temperature] (the ADC
    conversion is not modelled; its result is the input of the tick). *)
Definition loop (temperature : Q) : M unit :=
  s <- get_currentState ;;
  match s with
  | IDLE =>
      digitalWrite HEATER_PIN LOW ;;
      when (Qltb temperature targetTemp) (changeState HEATING)
  | HEATING =>
      digitalWrite HEATER_PIN HIGH ;;
      when (Qgeb temperature targetTemp) (changeState STABILIZING) ;;
      when (Qgtb temperature overheatTemp) (changeState OVERHEAT)
  | STABILIZING =>
      digitalWrite HEATER_PIN LOW ;;
      now <- millis ;;
      start <- get_stateStartTime ;;
      when (Z.leb stabilizingTime (elapsed now start))
           (changeState TARGET_REACHED) ;;
      when (Qgtb temperature overheatTemp) (changeState OVERHEAT)
  | TARGET_REACHED =>
      digitalWrite HEATER_PIN LOW ;;
      when (Qltb temperature (targetTemp - 2)) (changeState HEATING) ;;
      when (Qgtb temperature overheatTemp) (changeState OVERHEAT)
  | OVERHEAT =>
      digitalWrite HEATER_PIN LOW ;;
      when (Qltb temperature (targetTemp - 5)) (changeState IDLE)
  end ;;
  delay 1000.

Fixpoint run (n : nat) (temperature : Q) (w : World) : World :=
  match n with
  | O => w
  | S k => exec (loop temperature) (run k temperature w)
  end.

End TMP36.

(** ** Derived descriptions used by the proofs *)

(** Whether the dwell test of [STABILIZING] succeeds at the next timer
    reading of [w]. *)
Definition dwell_over (limit : Z) (w : World) : bool :=
  Z.leb limit (elapsed (wrap32 (clock w (reads w))) (stateStartTime w)).

(** State in which one LM75 iteration ends, as a function of the state it
    starts in, the temperature and the dwell test. *)
Definition lm75_next (s : State) (temp : Q) (late : bool) : State :=
  let s1 :=
    match s with
    | IDLE =>
        if Qltb temp (LM75.targetTemp - LM75.hysteresis) then HEATING else IDLE
    | HEATING => if Qgeb temp LM75.targetTemp then STABILIZING else HEATING
    | STABILIZING => if late then TARGET_REACHED else STABILIZING
    | TARGET_REACHED =>
        if Qltb temp (LM75.targetTemp - LM75.hysteresis) then HEATING
        else TARGET_REACHED
    | OVERHEAT => if Qltb temp LM75.targetTemp then IDLE else OVERHEAT
    end in
  if Qgeb temp LM75.overheatTemp && negb (State_eqb s1 OVERHEAT)
  then OVERHEAT else s1.

(** The same for the TMP36 sketch. *)
Definition tmp36_next (s : State) (temperature : Q) (late : bool) : State :=
  match s with
  | IDLE => if Qltb temperature TMP36.targetTemp then HEATING else IDLE
  | HEATING =>
      if Qgtb temperature TMP36.overheatTemp then OVERHEAT
      else if Qgeb temperature TMP36.targetTemp then STABILIZING
      else HEATING
  | STABILIZING =>
      if Qgtb temperature TMP36.overheatTemp then OVERHEAT
      else if late then TARGET_REACHED
      else STABILIZING
  | TARGET_REACHED =>
      if Qgtb temperature TMP36.overheatTemp then OVERHEAT
      else if Qltb temperature (TMP36.targetTemp - 2) then HEATING
      else TARGET_REACHED
  | OVERHEAT =>
      if Qltb temperature (TMP36.targetTemp - 5) then IDLE else OVERHEAT
  end.

(** Progress measures for runs at one temperature: a tick never raises
    them and lowers them whenever it changes the state. *)
Definition lm75_rank (temp : Q) (s : State) : nat :=
  if Qgeb temp LM75.overheatTemp then
    match s with OVERHEAT => 0 | _ => 1 end
  else if Qgeb temp LM75.targetTemp then
    match s with HEATING => 2 | STABILIZING => 1 | _ => 0 end
  else if Qltb temp (LM75.targetTemp - LM75.hysteresis) then
    match s with
    | HEATING => 0
    | IDLE | TARGET_REACHED => 1
    | STABILIZING | OVERHEAT => 2
    end
  else
    match s with STABILIZING | OVERHEAT => 1 | _ => 0 end.

Definition tmp36_rank (temperature : Q) (s : State) : nat :=
  if Qgtb temperature TMP36.overheatTemp then
    match s with IDLE | OVERHEAT => 0 | _ => 1 end
  else if Qgeb temperature TMP36.targetTemp then
    match s with HEATING => 2 | STABILIZING => 1 | _ => 0 end
  else if Qltb temperature (TMP36.targetTemp - 5) then
    match s with
    | HEATING => 0
    | IDLE | TARGET_REACHED => 1
    | STABILIZING | OVERHEAT => 2
    end
  else if Qltb temperature (TMP36.targetTemp - 2) then
    match s with
    | HEATING | OVERHEAT => 0
    | IDLE | TARGET_REACHED => 1
    | STABILIZING => 2
    end
  else
    match s with IDLE | STABILIZING => 1 | _ => 0 end.

(** [w] with an empty log. *)
Definition clear_log (w : World) : World :=
  mkWorld (currentState w) (stateStartTime w) (pins w) (clock w) (reads w) [].

(** Events a computation logs when it runs from [w], newest first (no
    function reads the log, so emptying it first changes nothing else). *)
Definition emitted {A : Type} (m : M A) (w : World) : list Event :=
  trace (exec m (clear_log w)).

Definition is_stamp (e : Event) : bool :=
  match e with
  | StampWrite _ => true
  | _ => false
  end.

Definition writes_pin (pin : Z) (e : Event) : bool :=
  match e with
  | PinWrite p _ => Z.eqb p pin
  | _ => false
  end.

(** In a log (newest first), every write to [currentState] is directly
    followed by a write to [stateStartTime], and no stamp is written
    otherwise. *)
Fixpoint paired (log : list Event) : bool :=
  match log with
  | [] => true
  | PinWrite _ _ :: rest => paired rest
  | StampWrite _ :: StateWrite _ :: rest => paired rest
  | _ => false
  end.

(** A run that really reaches [STABILIZING]: reset, [setup], one tick at
    35.0 ([HEATING]) and one at 41.0.  With the timer reading [500 * k] at
    its k-th call, [STABILIZING] is entered at time 1000. *)
Definition stabilizing_world : World :=
  exec (LM75.loop_body 41)
    (exec (LM75.loop_body 35)
       (exec LM75.setup (boot (fun k => 500 * Z.of_nat k)))).

(** Reachable worlds used in examples: reset, [setup] and one tick at a
    cold temperature leave either sketch in [HEATING]. *)
Definition lm75_heating_world : World :=
  exec (LM75.loop_body 35)
    (exec LM75.setup (boot (fun k => 500 * Z.of_nat k))).

Definition tmp36_heating_world : World :=
  exec (TMP36.loop 20)
    (exec TMP36.setup (boot (fun k => 1000 * Z.of_nat k))).

(** ** Descriptions used by the further properties *)

(** Value of a byte read as a signed 8-bit number. *)
Definition signed8 (b : Z) : Z := if b <? 128 then b else b - 256.

(** Value a byte has for the decoding: signed where [int] has 16 bits (the
    shifted byte reaches the sign bit), unsigned where it has 32. *)
Definition first_byte (int : IntWidth) (b : Z) : Z :=
  match int with
  | Int16 => signed8 b
  | Int32 => b
  end.

(** The two temperature-register bytes that hold a half-degree count [h],
    in the format the comment in [readTemperature] describes: a 9-bit
    two's complement number, its upper eight bits in the first byte and
    the half-degree bit in bit 7 of the second. *)
Definition lm75_register (h : Z) : list Z :=
  [(h / 2) mod 256; (h mod 2) * 128].

(** All byte values. *)
Definition all_bytes : list Z := map Z.of_nat (seq 0 256).

(** The arrows of the state diagram each sketch can take in one tick. *)
Definition lm75_edge (a b : State) : bool :=
  match a, b with
  | IDLE, HEATING | IDLE, OVERHEAT
  | HEATING, STABILIZING | HEATING, OVERHEAT
  | STABILIZING, TARGET_REACHED | STABILIZING, OVERHEAT
  | TARGET_REACHED, HEATING | TARGET_REACHED, OVERHEAT
  | OVERHEAT, IDLE => true
  | _, _ => false
  end.

Definition tmp36_edge (a b : State) : bool :=
  match a, b with
  | IDLE, HEATING
  | HEATING, STABILIZING | HEATING, OVERHEAT
  | STABILIZING, TARGET_REACHED | STABILIZING, OVERHEAT
  | TARGET_REACHED, HEATING | TARGET_REACHED, OVERHEAT
  | OVERHEAT, IDLE => true
  | _, _ => false
  end.

(** Worlds the LM75 sketch can be in between two iterations of [loop]:
    reset and [setup], then any number of iterations, the sensor delivering
    anything. *)
Inductive lm75_reachable : World -> Prop :=
| lm75_after_setup (clk : nat -> Z) :
    lm75_reachable (exec LM75.setup (boot clk))
| lm75_after_loop (w : World) (int : IntWidth) (rx : list Z) :
    lm75_reachable w -> lm75_reachable (exec (LM75.loop int rx) w).

(** The same for the TMP36 sketch, the ADC conversion yielding anything. *)
Inductive tmp36_reachable : World -> Prop :=
| tmp36_after_setup (clk : nat -> Z) :
    tmp36_reachable (exec TMP36.setup (boot clk))
| tmp36_after_loop (w : World) (temperature : Q) :
    tmp36_reachable w -> tmp36_reachable (exec (TMP36.loop temperature) w).

(** Iterations of the LM75 [loop], one per bus delivery in [rxs]. *)
Fixpoint lm75_feed (int : IntWidth) (rxs : list (list Z)) (w : World)
    : World :=
  match rxs with
  | [] => w
  | rx :: rest => lm75_feed int rest (exec (LM75.loop int rx) w)
  end.

(** Number of ticks among the first [n] of a state sequence that changed
    the state. *)
Fixpoint changes (f : nat -> State) (n : nat) : nat :=
  match n with
  | O => 0
  | S k => changes f k + (if State_eqb (f (S k)) (f k) then 0 else 1)
  end.

(** ** Sanity checks on concrete runs *)

Example lm75_decode_25_5 (int : IntWidth) :
  (LM75.readTemperature int [25; 128]%Z == 51 # 2)%Q.
Proof. destruct int; reflexivity. Qed.

Example lm75_decode_minus_half :
  (LM75.readTemperature Int16 [255; 128]%Z == - (1 # 2))%Q /\
  (LM75.readTemperature Int32 [255; 128]%Z == 511 # 2)%Q.
Proof. split; reflexivity. Qed.

Example lm75_sentinel (int : IntWidth) :
  LM75.readTemperature int [7] = (- (100))%Q.
Proof. reflexivity. Qed.

Example lm75_idle_cold :
  currentState (exec (LM75.loop_body 35) (boot (fun _ => 0))) = HEATING.
Proof. reflexivity. Qed.

Example lm75_dwell :
  currentState (LM75.run 9 41 stabilizing_world) = STABILIZING /\
  currentState (LM75.run 10 41 stabilizing_world) = TARGET_REACHED /\
  currentState (LM75.run 11 37 stabilizing_world) = HEATING.
Proof. repeat split; vm_compute; reflexivity. Qed.

Example tmp36_overheat_then_recover :
  let hot := exec (TMP36.loop 41) tmp36_heating_world in
  currentState hot = OVERHEAT /\
  currentState (exec (TMP36.loop 26) hot) = OVERHEAT /\
  currentState (exec (TMP36.loop 24) hot) = IDLE.
Proof. repeat split; vm_compute; reflexivity. Qed.

(** ** Proof tools *)

Lemma State_eqb_eq (a b : State) : State_eqb a b = true <-> a = b.
Proof. destruct a, b; simpl; split; intro H; try reflexivity; discriminate H. Qed.

Lemma Qltb_lt (a b : Q) : Qltb a b = true <-> (a < b)%Q.
Proof.
  unfold Qltb. rewrite negb_true_iff, <- not_true_iff_false, Qle_bool_iff.
  split; [apply Qnot_le_lt | apply Qlt_not_le].
Qed.

Lemma Qgeb_le (a b : Q) : Qgeb a b = true <-> (b <= a)%Q.
Proof. unfold Qgeb. apply Qle_bool_iff. Qed.

Lemma Qgtb_gt (a b : Q) : Qgtb a b = true <-> (b < a)%Q.
Proof.
  unfold Qgtb. rewrite negb_true_iff, <- not_true_iff_false, Qle_bool_iff.
  split; [apply Qnot_le_lt | apply Qlt_not_le].
Qed.

Lemma Qle_bool_false (a b : Q) : Qle_bool a b = false <-> (b < a)%Q.
Proof.
  rewrite <- not_true_iff_false, Qle_bool_iff.
  split; [apply Qnot_le_lt | apply Qlt_not_le].
Qed.

(** Unfold one iteration down to record updates. *)
Ltac tick :=
  unfold emitted, clear_log, exec, LM75.loop, LM75.loop_body, LM75.handle_state,
    LM75.overheat_check, LM75.controlHeater, LM75.setup,
    TMP36.loop, TMP36.setup, changeState, when, delay, bind, ret,
    get_currentState, get_stateStartTime, set_currentState,
    set_stateStartTime, millis, digitalWrite;
  cbn [fst snd currentState stateStartTime pins clock reads trace
       State_eqb negb andb].

(** Case split on every float comparison in sight, keeping the facts. *)
Ltac qsplit :=
  unfold Qltb, Qgeb, Qgtb in *;
  repeat match goal with
         | |- context [Qle_bool ?a ?b] =>
             let E := fresh "E" in
             destruct (Qle_bool a b) eqn:E;
             [apply Qle_bool_iff in E | apply Qle_bool_false in E]
         end;
  unfold LM75.targetTemp, LM75.hysteresis, LM75.overheatTemp,
    TMP36.targetTemp, TMP36.overheatTemp in *;
  cbn [negb andb State_eqb].

Lemma lm75_loop_state (temp : Q) (w : World) :
  currentState (exec (LM75.loop_body temp) w)
  = lm75_next (currentState w) temp (dwell_over LM75.stabilizingTime w).
Proof.
  destruct w as [s t p c r tr]. unfold lm75_next, dwell_over.
  cbn [currentState stateStartTime clock reads].
  destruct s; tick;
    repeat match goal with
           | |- context [if ?b then _ else _] => destruct b; tick
           end; reflexivity.
Qed.

Lemma tmp36_loop_state (temperature : Q) (w : World) :
  currentState (exec (TMP36.loop temperature) w)
  = tmp36_next (currentState w) temperature
               (dwell_over TMP36.stabilizingTime w).
Proof.
  destruct w as [s t p c r tr]. unfold tmp36_next, dwell_over.
  cbn [currentState stateStartTime clock reads].
  destruct s; tick;
    repeat match goal with
           | |- context [if ?b then _ else _] => destruct b; tick
           end; reflexivity.
Qed.

(** Start a proof about one iteration from a known starting state. *)
Ltac from_state H :=
  match type of H with
  | currentState ?w = _ =>
      destruct w as [s0 t0 p0 c0 r0 tr0];
      cbn [currentState] in H; subst s0
  end.

Ltac crunch :=
  tick; qsplit; tick;
  repeat match goal with
         | |- context [Z.leb ?a ?b] =>
             let E := fresh "E" in
             destruct (Z.leb a b) eqn:E;
             [apply Z.leb_le in E | apply Z.leb_gt in E]; tick
         end.

(** ** Per-state transitions *)

(** C4 (as amended).  A tick that starts in [IDLE]: in the LM75 sketch it
    ends in [HEATING] exactly when [temp < targetTemp - hysteresis], stays
    [IDLE] exactly when [targetTemp - hysteresis <= temp < overheatTemp],
    and ends in [OVERHEAT] exactly when [overheatTemp <= temp]; in the
    TMP36 sketch the [IDLE] branch compares with the bare target: it ends
    in [HEATING] exactly when [temperature < targetTemp] and stays [IDLE]
    otherwise. *)
Theorem C4_idle_tick (w : World) (temp : Q) (Hidle : currentState w = IDLE) :
  let lm := currentState (exec (LM75.loop_body temp) w) in
  let tm := currentState (exec (TMP36.loop temp) w) in
  (((lm = HEATING <-> temp < LM75.targetTemp - LM75.hysteresis) /\
    (lm = IDLE <->
       LM75.targetTemp - LM75.hysteresis <= temp /\ temp < LM75.overheatTemp) /\
    (lm = OVERHEAT <-> LM75.overheatTemp <= temp)) /\
   ((tm = HEATING <-> temp < TMP36.targetTemp) /\
    (tm = IDLE <-> TMP36.targetTemp <= temp)))%Q.
Proof.
  intros lm tm. subst lm tm.
  rewrite lm75_loop_state, tmp36_loop_state, Hidle.
  unfold lm75_next, tmp36_next. qsplit.
  all: repeat split; intros; try discriminate; try reflexivity; try lra.
Qed.

Lemma C4_idle_tick_witness :
  currentState (exec (LM75.loop_body 35) (boot (fun _ => 0))) = HEATING.
Proof.
  apply (proj1 (C4_idle_tick (boot (fun _ => 0)) 35 eq_refl)).
  reflexivity.
Defined.

(** C4 fails as stated: at 29.0 the TMP36 sketch leaves [IDLE] although
    29.0 is not below target minus the 2.0 deadband, and at 51.0 the LM75
    sketch leaves [IDLE] for [OVERHEAT] although 51.0 is not below
    [targetTemp - hysteresis]. *)
Lemma C4_counterexample :
  (TMP36.targetTemp - 2 <= 29)%Q /\
  currentState (exec (TMP36.loop 29) (boot (fun _ => 0))) = HEATING /\
  (LM75.targetTemp - LM75.hysteresis <= 51)%Q /\
  currentState (exec (LM75.loop_body 51) (boot (fun _ => 0))) = OVERHEAT.
Proof.
  repeat split; try reflexivity; unfold Qle; simpl; lia.
Qed.



(** The override has priority over the dwell: in a [STABILIZING] state
    entered 500 ms earlier, a tick at 60.0 ends in [OVERHEAT], and a tick
    at 49.5, far above target, stays [STABILIZING]. *)
Example stabilizing_override_example :
  currentState stabilizing_world = STABILIZING /\
  elapsed (wrap32 (clock stabilizing_world (reads stabilizing_world)))
          (stateStartTime stabilizing_world) = 500 /\
  currentState (exec (LM75.loop_body 60) stabilizing_world) = OVERHEAT /\
  currentState (exec (LM75.loop_body (99 # 2)) stabilizing_world)
  = STABILIZING.
Proof. repeat split; vm_compute; reflexivity. Qed.

(** C6.  A tick that starts in [OVERHEAT] ends in [IDLE] exactly when the
    temperature is below the recovery threshold ([targetTemp] in the LM75
    sketch, [targetTemp - 5] in the TMP36 sketch) and otherwise stays in
    [OVERHEAT]; in the LM75 sketch the warning LED is low after a
    recovering tick and high after any other; with [targetTemp = 40.0] a
    reading of 39.9 ends in [IDLE] with the LED low. *)
Theorem C6_overheat_recovery (w : World) (temp : Q)
    (Hov : currentState w = OVERHEAT) :
  let lm := exec (LM75.loop_body temp) w in
  let tm := exec (TMP36.loop temp) w in
  let lm' := exec (LM75.loop_body (399 # 10)) w in
  ((currentState lm = IDLE /\ pins lm LM75.ledPin = LOW <->
      (temp < LM75.targetTemp)%Q) /\
   (currentState lm = OVERHEAT /\ pins lm LM75.ledPin = HIGH <->
      (LM75.targetTemp <= temp)%Q)) /\
  ((currentState tm = IDLE <-> (temp < TMP36.targetTemp - 5)%Q) /\
   (currentState tm = OVERHEAT <-> (TMP36.targetTemp - 5 <= temp)%Q)) /\
  (currentState lm' = IDLE /\ pins lm' LM75.ledPin = LOW).
Proof.
  intros lm tm lm'. subst lm tm lm'. from_state Hov.
  split; [| split].
  - crunch; repeat split; intros;
      repeat match goal with H : _ /\ _ |- _ => destruct H end;
      try discriminate; try reflexivity; try lra.
  - crunch; repeat split; intros; try discriminate; try reflexivity; try lra.
  - split; reflexivity.
Qed.

Lemma C6_overheat_recovery_witness :
  let w := exec (LM75.loop_body 51) (boot (fun _ => 0)) in
  currentState (exec (LM75.loop_body 39) w) = IDLE /\
  pins (exec (LM75.loop_body 39) w) LM75.ledPin = LOW.
Proof.
  apply (proj2 (proj1 (proj1 (C6_overheat_recovery
           (exec (LM75.loop_body 51) (boot (fun _ => 0))) 39 eq_refl)))).
  unfold LM75.targetTemp, Qlt. simpl. lia.
Defined.

(** ** The overheat override *)

Lemma lm75_handle_state_not_overheat (w : World) (temp : Q) :
  currentState w <> OVERHEAT ->
  currentState (exec (LM75.handle_state temp) w) <> OVERHEAT.
Proof.
  destruct w as [s t p c r tr]. cbn [currentState]. intro Hs.
  destruct s; try (exfalso; apply Hs; reflexivity);
    tick;
    repeat match goal with
           | |- context [if ?b then _ else _] => destruct b; tick
           end; discriminate.
Qed.

(** C1 (as amended).  From every state other than [OVERHEAT], for every
    timer behaviour and whatever the per-state predicate of the state
    says: in the LM75 sketch [overheatTemp <= temp] makes a single tick
    end in [OVERHEAT]; in the TMP36 sketch [overheatTemp < temperature]
    makes a single tick from [HEATING], [STABILIZING] or [TARGET_REACHED]
    end in [OVERHEAT], while the [IDLE] case has no overheat test: a tick
    from [IDLE] never ends in [OVERHEAT] and stays [IDLE] at any
    temperature above the overheat limit. *)
Theorem C1_overheat_override (w : World) (temp : Q)
    (Hs : currentState w <> OVERHEAT) :
  ((LM75.overheatTemp <= temp)%Q ->
     currentState (exec (LM75.loop_body temp) w) = OVERHEAT) /\
  ((TMP36.overheatTemp < temp)%Q -> currentState w <> IDLE ->
     currentState (exec (TMP36.loop temp) w) = OVERHEAT) /\
  (currentState w = IDLE ->
     currentState (exec (TMP36.loop temp) w) <> OVERHEAT /\
     ((TMP36.overheatTemp < temp)%Q ->
        currentState (exec (TMP36.loop temp) w) = IDLE)).
Proof.
  split; [| split].
  - intro Hot. rewrite lm75_loop_state. unfold lm75_next.
    destruct (currentState w); try (exfalso; apply Hs; reflexivity);
      destruct (dwell_over LM75.stabilizingTime w); qsplit;
      try reflexivity; lra.
  - intros Hot Hni. rewrite tmp36_loop_state. unfold tmp36_next.
    apply Qgtb_gt in Hot. rewrite Hot.
    destruct (currentState w); try reflexivity;
      exfalso; [apply Hni | apply Hs]; reflexivity.
  - intro Hidle. rewrite tmp36_loop_state, Hidle. unfold tmp36_next.
    qsplit; split; intros; try discriminate; try reflexivity; lra.
Qed.

Lemma C1_overheat_override_witness :
  currentState (exec (LM75.loop_body 51) lm75_heating_world) = OVERHEAT.
Proof.
  refine (proj1 (C1_overheat_override lm75_heating_world 51 _) _).
  - vm_compute. discriminate.
  - unfold LM75.overheatTemp, Qle. simpl. lia.
Defined.

(** C1 fails as stated in the TMP36 sketch: after [setup] the state is
    [IDLE]; the ADC count 195 converts to
    (195 * 5/1023 - 0.5) * 100 = 46350/1023, about 45.3 and above
    [overheatTemp] = 40.0, and the tick at that temperature stays
    [IDLE]. *)
Lemma C1_counterexample :
  let w := exec TMP36.setup (boot (fun _ => 0)) in
  currentState w = IDLE /\
  currentState w <> OVERHEAT /\
  (TMP36.overheatTemp <= 46350 # 1023)%Q /\
  currentState (exec (TMP36.loop (46350 # 1023)) w) = IDLE.
Proof.
  repeat split; try (vm_compute; reflexivity).
  - vm_compute. discriminate.
  - unfold TMP36.overheatTemp, Qle. simpl. lia.
Qed.

(** ** Actuator commands *)

(** C2 (as amended).  The heater level a tick leaves behind is a function
    of the state the tick starts in, not of the state it ends in: high when
    it starts in [HEATING]; low when it starts in [STABILIZING],
    [TARGET_REACHED] or [OVERHEAT]; starting in [IDLE] the TMP36 sketch
    writes low and the LM75 sketch leaves the pin as it was.  Every tick
    that starts in [OVERHEAT] leaves the heater low, and in the LM75 sketch
    leaves the warning LED high unless that same tick recovers to [IDLE]. *)
Theorem C2_heater_by_start_state (w : World) (temp : Q) :
  let lm := exec (LM75.loop_body temp) w in
  let tm := exec (TMP36.loop temp) w in
  pins lm LM75.heaterPin
  = match currentState w with
    | IDLE => pins w LM75.heaterPin
    | HEATING => HIGH
    | _ => LOW
    end /\
  pins tm TMP36.HEATER_PIN
  = match currentState w with
    | HEATING => HIGH
    | _ => LOW
    end /\
  (currentState w = OVERHEAT ->
     pins lm LM75.heaterPin = LOW /\
     pins tm TMP36.HEATER_PIN = LOW /\
     (currentState lm = OVERHEAT -> pins lm LM75.ledPin = HIGH)).
Proof.
  intros lm tm. subst lm tm. destruct w as [s t p c r tr].
  cbn [currentState pins].
  split; [| split].
  - destruct s; crunch; reflexivity.
  - destruct s; crunch; reflexivity.
  - intro Hs. subst s. crunch; repeat split; intros;
      try reflexivity; try discriminate; lra.
Qed.

Lemma C2_heater_by_start_state_witness :
  let w := exec (LM75.loop_body 45)
             (exec (LM75.loop_body 51) lm75_heating_world) in
  pins w LM75.heaterPin = LOW /\ pins w LM75.ledPin = HIGH.
Proof.
  pose proof (proj2 (proj2 (C2_heater_by_start_state
                (exec (LM75.loop_body 51) lm75_heating_world) 45)) eq_refl)
    as [Hh [_ Hled]].
  split; [exact Hh | apply Hled; reflexivity].
Defined.

(** C2 fails as stated.  The tick at 51.0 from [HEATING] ends with
    [currentState = OVERHEAT] while the heater is high and the LED low; and
    two ticks at 35.0 both end in [HEATING], the first (from [IDLE]) with
    the heater low, the second with the heater high. *)
Lemma C2_counterexample :
  let hot := exec (LM75.loop_body 51) lm75_heating_world in
  let w0 := exec LM75.setup (boot (fun k => 500 * Z.of_nat k)) in
  let w1 := exec (LM75.loop_body 35) w0 in
  let w2 := exec (LM75.loop_body 35) w1 in
  (currentState hot = OVERHEAT /\
   pins hot LM75.heaterPin = HIGH /\ pins hot LM75.ledPin = LOW) /\
  (currentState w1 = HEATING /\ pins w1 LM75.heaterPin = LOW) /\
  (currentState w2 = HEATING /\ pins w2 LM75.heaterPin = HIGH).
Proof. repeat split; vm_compute; reflexivity. Qed.

(** C10.  LM75 sketch: a tick that starts in [IDLE] logs no write to the
    heater pin and leaves the pin at the level it had before the tick. *)
Theorem C10_idle_no_heater_write (w : World) (int : IntWidth) (rx : list Z)
    (Hidle : currentState w = IDLE) :
  existsb (writes_pin LM75.heaterPin) (emitted (LM75.loop int rx) w) = false /\
  pins (exec (LM75.loop int rx) w) LM75.heaterPin = pins w LM75.heaterPin.
Proof.
  from_state Hidle. generalize (LM75.readTemperature int rx). intro temp.
  split; crunch; reflexivity.
Qed.

Lemma C10_idle_no_heater_write_witness :
  let w := exec LM75.setup (boot (fun _ => 0)) in
  existsb (writes_pin LM75.heaterPin) (emitted (LM75.loop Int16 [20; 0]) w)
  = false /\
  pins (exec (LM75.loop Int16 [20; 0]) w) LM75.heaterPin = LOW.
Proof.
  exact (C10_idle_no_heater_write (exec LM75.setup (boot (fun _ => 0)))
           Int16 [20; 0] eq_refl).
Defined.

(** ** Sensor failure *)

Lemma lm75_sentinel_on_failure (int : IntWidth) (rx : list Z) :
  (length rx < 2)%nat -> LM75.readTemperature int rx = (- (100))%Q.
Proof.
  destruct rx as [| b0 [| b1 rest]]; cbn [length]; intro H;
    try reflexivity; lia.
Qed.

(** C9.  LM75 sketch: when fewer than two bytes arrive, [readTemperature]
    returns -100.0, which is below [targetTemp - hysteresis]; a tick with
    such a read that starts in [IDLE] or [TARGET_REACHED] ends in
    [HEATING], and the tick after it, whatever the sensor then delivers,
    writes the heater pin high and leaves it high. *)
Theorem C9_sentinel_heats (w : World) (int : IntWidth) (rx rx' : list Z)
    (Hfail : (length rx < 2)%nat)
    (Hs : currentState w = IDLE \/ currentState w = TARGET_REACHED) :
  let w1 := exec (LM75.loop int rx) w in
  LM75.readTemperature int rx = (- (100))%Q /\
  (LM75.readTemperature int rx < LM75.targetTemp - LM75.hysteresis)%Q /\
  currentState w1 = HEATING /\
  In (PinWrite LM75.heaterPin HIGH) (emitted (LM75.loop int rx') w1) /\
  pins (exec (LM75.loop int rx') w1) LM75.heaterPin = HIGH.
Proof.
  intro w1. subst w1. unfold LM75.loop.
  rewrite (lm75_sentinel_on_failure int rx Hfail).
  split; [reflexivity |].
  split; [unfold LM75.targetTemp, LM75.hysteresis, Qlt; simpl; lia |].
  set (w1 := exec (LM75.loop_body (- (100))) w).
  assert (H1 : currentState w1 = HEATING).
  { unfold w1. rewrite lm75_loop_state.
    destruct Hs as [Hs | Hs]; rewrite Hs; reflexivity. }
  clearbody w1. clear Hs Hfail rx w.
  split; [exact H1 |].
  generalize (LM75.readTemperature int rx'). intro temp.
  from_state H1.
  split; crunch; cbn [In]; tauto.
Qed.

Lemma C9_sentinel_heats_witness :
  let w := exec LM75.setup (boot (fun _ => 0)) in
  currentState (exec (LM75.loop Int16 []) w) = HEATING /\
  pins (exec (LM75.loop Int16 [20; 0]) (exec (LM75.loop Int16 []) w))
       LM75.heaterPin = HIGH.
Proof.
  pose proof (C9_sentinel_heats (exec LM75.setup (boot (fun _ => 0)))
                Int16 [] [20; 0] ltac:(simpl; lia) (or_introl eq_refl))
    as [_ [_ [H1 [_ H2]]]].
  split; [exact H1 | exact H2].
Defined.

(** C3 is not what the LM75 sketch does.  After [setup], with the bus
    delivering no byte, the tick neither holds the state nor the actuator:
    it ends in [HEATING], and the next tick with the bus still silent
    drives the heater pin high. *)
Theorem C3_sensor_failure_heats (int : IntWidth) :
  let w0 := exec LM75.setup (boot (fun k => 500 * Z.of_nat k)) in
  let w1 := exec (LM75.loop int []) w0 in
  let w2 := exec (LM75.loop int []) w1 in
  currentState w0 = IDLE /\ pins w0 LM75.heaterPin = LOW /\
  currentState w1 = HEATING /\
  currentState w2 = HEATING /\ pins w2 LM75.heaterPin = HIGH.
Proof. repeat split; vm_compute; reflexivity. Qed.

(** ** State and time stamp *)

(** [changeState] stamps the time whatever the old state is, also when the
    new state equals it. *)
Lemma changeState_always_stamps (s : State) (w : World) :
  emitted (changeState s) w
  = [StampWrite (wrap32 (clock w (reads w))); StateWrite s] /\
  currentState (exec (changeState s) w) = s /\
  stateStartTime (exec (changeState s) w) = wrap32 (clock w (reads w)).
Proof. repeat split. Qed.

(** C7.  State and time stamp are written together: in [setup] and in
    every iteration of [loop], in both sketches, each write to
    [currentState] is directly followed by a write to [stateStartTime] and
    the stamp is written at no other point.  For an iteration of [loop],
    [stateStartTime] is written if and only if the iteration ends in a
    state other than the one it started in: with the state unchanged the
    stamp keeps its value, and with the state changed the stamp is the
    latest timer reading of the iteration. *)
Theorem C7_stamp_iff_change (w : World) (temp : Q) :
  let lm := exec (LM75.loop_body temp) w in
  let tm := exec (TMP36.loop temp) w in
  (paired (emitted LM75.setup w) = true /\
   paired (emitted TMP36.setup w) = true /\
   paired (emitted (LM75.loop_body temp) w) = true /\
   paired (emitted (TMP36.loop temp) w) = true) /\
  ((existsb is_stamp (emitted (LM75.loop_body temp) w) = true <->
      currentState lm <> currentState w) /\
   (currentState lm = currentState w ->
      stateStartTime lm = stateStartTime w) /\
   (currentState lm <> currentState w ->
      stateStartTime lm = wrap32 (clock w (pred (reads lm))))) /\
  ((existsb is_stamp (emitted (TMP36.loop temp) w) = true <->
      currentState tm <> currentState w) /\
   (currentState tm = currentState w ->
      stateStartTime tm = stateStartTime w) /\
   (currentState tm <> currentState w ->
      stateStartTime tm = wrap32 (clock w (pred (reads tm))))).
Proof.
  intros lm tm. subst lm tm. destruct w as [s t p c r tr].
  cbn [currentState stateStartTime clock].
  split; [| split].
  - repeat split; try reflexivity; destruct s; crunch; reflexivity.
  - destruct s; crunch; cbn [existsb is_stamp orb];
      repeat split; intros; try reflexivity; try discriminate;
      try congruence; try lra.
  - destruct s; crunch; cbn [existsb is_stamp orb];
      repeat split; intros; try reflexivity; try discriminate;
      try congruence; try lra.
Qed.

Lemma C7_stamp_iff_change_witness :
  stateStartTime (exec (LM75.loop_body 39) lm75_heating_world)
  = stateStartTime lm75_heating_world.
Proof.
  apply (proj1 (proj2 (proj1 (proj2
           (C7_stamp_iff_change lm75_heating_world 39))))).
  reflexivity.
Defined.

(** [setup] is the one place where the stamp is written while the state
    keeps its value: [changeState(IDLE)] runs on the initial [IDLE]. *)
Lemma setup_stamps_initial_state :
  let w := boot (fun _ => 7) in
  currentState (exec LM75.setup w) = currentState w /\
  emitted LM75.setup w = [StampWrite 7; StateWrite IDLE] /\
  stateStartTime w = 0 /\
  stateStartTime (exec LM75.setup w) = 7.
Proof. repeat split. Qed.

(** ** Runs at a constant temperature *)

Section Descent.

(** A sequence of states whose every step keeps the state or lowers a
    natural-number measure. *)
Variable f : nat -> State.
Variable rank : State -> nat.
Hypothesis Hstep : forall n, f (S n) = f n \/ (rank (f (S n)) < rank (f n))%nat.

Lemma rank_step_le (n : nat) : (rank (f (S n)) <= rank (f n))%nat.
Proof. destruct (Hstep n) as [H | H]; [rewrite H |]; lia. Qed.

Lemma rank_antitone (i d : nat) : (rank (f (i + d)) <= rank (f i))%nat.
Proof.
  induction d as [| d IH].
  - rewrite Nat.add_0_r. lia.
  - rewrite Nat.add_succ_r. pose proof (rank_step_le (i + d)). lia.
Qed.

(** While the measure has not dropped, the state has not moved. *)
Lemma constant_while_rank (i d : nat) :
  (rank (f i) <= rank (f (i + d)))%nat -> f (i + d) = f i.
Proof.
  induction d as [| d IH]; intro H.
  - now rewrite Nat.add_0_r.
  - rewrite Nat.add_succ_r in *.
    pose proof (rank_step_le (i + d)) as Hle.
    pose proof (rank_antitone i d) as Hanti.
    destruct (Hstep (i + d)) as [E | L]; [| lia].
    rewrite E. apply IH. lia.
Qed.

Lemma never_returns (i j k : nat) :
  (i <= j <= k)%nat -> f i = f k -> f j = f i.
Proof.
  intros [Hij Hjk] E.
  replace j with (i + (j - i))%nat by lia.
  apply constant_while_rank.
  pose proof (rank_antitone j (k - j)) as H.
  replace (j + (k - j))%nat with k in H by lia.
  rewrite <- E in H. replace (i + (j - i))%nat with j by lia. exact H.
Qed.

Lemma settles_below (r : nat) :
  forall n0, (rank (f n0) <= r)%nat ->
  exists n, forall m, (n <= m)%nat -> f m = f n.
Proof.
  induction r as [| r IH]; intros n0 Hr.
  - exists n0. intros m Hm.
    replace m with (n0 + (m - n0))%nat by lia.
    apply constant_while_rank. lia.
  - destruct (classic (exists m, (n0 <= m)%nat /\ (rank (f m) < rank (f n0))%nat))
      as [[m [_ Hlt]] | Hno].
    + apply (IH m). lia.
    + exists n0. intros m Hm.
      replace m with (n0 + (m - n0))%nat by lia.
      apply constant_while_rank.
      destruct (le_lt_dec (rank (f n0)) (rank (f (n0 + (m - n0))))) as [H | H];
        [exact H |].
      exfalso. apply Hno. exists (n0 + (m - n0))%nat. split; [lia | exact H].
Qed.

Lemma settles : exists n, forall m, (n <= m)%nat -> f m = f n.
Proof. apply (settles_below (rank (f 0%nat)) 0%nat). lia. Qed.

End Descent.

Lemma lm75_rank_step (s : State) (temp : Q) (late : bool) :
  lm75_next s temp late = s \/
  (lm75_rank temp (lm75_next s temp late) < lm75_rank temp s)%nat.
Proof.
  unfold lm75_next, lm75_rank.
  destruct s, late; qsplit;
    try (left; reflexivity); try (right; cbn; lia); exfalso; lra.
Qed.

Lemma tmp36_rank_step (s : State) (temperature : Q) (late : bool) :
  tmp36_next s temperature late = s \/
  (tmp36_rank temperature (tmp36_next s temperature late)
   < tmp36_rank temperature s)%nat.
Proof.
  unfold tmp36_next, tmp36_rank.
  destruct s, late; qsplit;
    try (left; reflexivity); try (right; cbn; lia); exfalso; lra.
Qed.

Lemma lm75_run_step (temp : Q) (w : World) (n : nat) :
  currentState (LM75.run (S n) temp w) = currentState (LM75.run n temp w) \/
  (lm75_rank temp (currentState (LM75.run (S n) temp w))
   < lm75_rank temp (currentState (LM75.run n temp w)))%nat.
Proof. cbn [LM75.run]. rewrite lm75_loop_state. apply lm75_rank_step. Qed.

Lemma tmp36_run_step (temp : Q) (w : World) (n : nat) :
  currentState (TMP36.run (S n) temp w) = currentState (TMP36.run n temp w) \/
  (tmp36_rank temp (currentState (TMP36.run (S n) temp w))
   < tmp36_rank temp (currentState (TMP36.run n temp w)))%nat.
Proof. cbn [TMP36.run]. rewrite tmp36_loop_state. apply tmp36_rank_step. Qed.

(** C8.  For every temperature, every starting world and every behaviour
    of the timer, the states of a run of [loop] at that constant
    temperature never come back to a state they have left (if the run is
    in the same state after [i] and after [k] ticks, it is in that state
    at every tick in between), and from some tick on the state never
    changes again; in both sketches. *)
Theorem C8_no_oscillation (temp : Q) (w : World) :
  ((forall i j k, (i <= j <= k)%nat ->
      currentState (LM75.run i temp w) = currentState (LM75.run k temp w) ->
      currentState (LM75.run j temp w) = currentState (LM75.run i temp w)) /\
   (exists n, forall m, (n <= m)%nat ->
      currentState (LM75.run m temp w) = currentState (LM75.run n temp w))) /\
  ((forall i j k, (i <= j <= k)%nat ->
      currentState (TMP36.run i temp w) = currentState (TMP36.run k temp w) ->
      currentState (TMP36.run j temp w) = currentState (TMP36.run i temp w)) /\
   (exists n, forall m, (n <= m)%nat ->
      currentState (TMP36.run m temp w) = currentState (TMP36.run n temp w))).
Proof.
  split; split.
  - apply (never_returns (fun n => currentState (LM75.run n temp w))
             (lm75_rank temp) (lm75_run_step temp w)).
  - apply (settles (fun n => currentState (LM75.run n temp w))
             (lm75_rank temp) (lm75_run_step temp w)).
  - apply (never_returns (fun n => currentState (TMP36.run n temp w))
             (tmp36_rank temp) (tmp36_run_step temp w)).
  - apply (settles (fun n => currentState (TMP36.run n temp w))
             (tmp36_rank temp) (tmp36_run_step temp w)).
Qed.

Lemma C8_no_oscillation_witness :
  currentState (LM75.run 4 45 lm75_heating_world)
  = currentState (LM75.run 2 45 lm75_heating_world).
Proof.
  apply (proj1 (proj1 (C8_no_oscillation 45 lm75_heating_world))
           2%nat 4%nat 6%nat).
  - lia.
  - vm_compute. reflexivity.
Defined.

(** ** Further properties: the LM75 register decoding *)

Lemma in_all_bytes (b : Z) : 0 <= b < 256 -> In b all_bytes.
Proof.
  intro H. unfold all_bytes. apply in_map_iff.
  exists (Z.to_nat b). split; [lia | apply in_seq; lia].
Qed.

Lemma tempRaw_table (int : IntWidth) :
  forallb (fun m =>
    forallb (fun l =>
      Z.eqb (LM75.tempRaw int m l) (2 * first_byte int m + l / 128))
      all_bytes)
    all_bytes = true.
Proof. destruct int; vm_compute; reflexivity. Qed.

Lemma tempRaw_bytes (int : IntWidth) (msb lsb : Z) :
  0 <= msb < 256 -> 0 <= lsb < 256 ->
  LM75.tempRaw int msb lsb = 2 * first_byte int msb + lsb / 128.
Proof.
  intros Hm Hl. pose proof (tempRaw_table int) as T.
  rewrite forallb_forall in T. specialize (T msb (in_all_bytes msb Hm)).
  rewrite forallb_forall in T. specialize (T lsb (in_all_bytes lsb Hl)).
  apply Z.eqb_eq. exact T.
Qed.

Lemma bit7_range (b : Z) : 0 <= b < 256 -> 0 <= b / 128 <= 1.
Proof.
  intro H. split; [apply Z.div_pos; lia |].
  assert (b / 128 < 2) by (apply Z.div_lt_upper_bound; lia). lia.
Qed.

Lemma signed8_range (b : Z) : 0 <= b < 256 -> -128 <= signed8 b <= 127.
Proof. unfold signed8. destruct (Z.ltb_spec b 128); lia. Qed.

Lemma decode_formula (int : IntWidth) (b0 b1 : Z) (rest : list Z) :
  LM75.readTemperature int (b0 :: b1 :: rest)
  = (inject_Z (2 * first_byte int (b0 mod 256) + (b1 mod 256) / 128)
     * (1 # 2))%Q.
Proof.
  cbn [LM75.readTemperature].
  rewrite tempRaw_bytes by (apply Z.mod_pos_bound; lia).
  reflexivity.
Qed.

(** X1.  A successful [readTemperature] returns
    [(2 * first + bit7) * 0.5], where [bit7] is bit 7 of the second byte
    and [first] is the first byte, read as a signed 8-bit number where
    [int] has 16 bits and as an unsigned one where it has 32 (there the
    shifted byte never reaches the sign bit, so the 9-bit two's complement
    value is not sign-extended). *)
Theorem X1_decode_formula (int : IntWidth) (b0 b1 : Z) (rest : list Z) :
  LM75.readTemperature int (b0 :: b1 :: rest)
  = (inject_Z (2 * first_byte int (b0 mod 256) + (b1 mod 256) / 128)
     * (1 # 2))%Q.
Proof.
  cbn [LM75.readTemperature].
  rewrite tempRaw_bytes by (apply Z.mod_pos_bound; lia).
  reflexivity.
Qed.

(** X2.  A successful [readTemperature] returns a multiple of 0.5,
    whatever the two bytes are: between -128.0 and 127.5 where [int] has
    16 bits, between 0.0 and 255.5 where it has 32 (no successful read is
    negative there). *)
Theorem X2_decode_range (int : IntWidth) (b0 b1 : Z) (rest : list Z) :
  exists h : Z,
    LM75.readTemperature int (b0 :: b1 :: rest)
    = (inject_Z h * (1 # 2))%Q /\
    match int with
    | Int16 =>
        -256 <= h <= 255 /\
        (- (128) <= LM75.readTemperature int (b0 :: b1 :: rest)
         <= 255 # 2)%Q
    | Int32 =>
        0 <= h <= 511 /\
        (0 <= LM75.readTemperature int (b0 :: b1 :: rest) <= 511 # 2)%Q
    end.
Proof.
  cbn [LM75.readTemperature].
  set (m := b0 mod 256). set (l := b1 mod 256).
  assert (Hm : 0 <= m < 256) by (apply Z.mod_pos_bound; lia).
  assert (Hl : 0 <= l < 256) by (apply Z.mod_pos_bound; lia).
  exists (LM75.tempRaw int m l). split; [reflexivity |].
  pose proof (tempRaw_bytes int m l Hm Hl) as Hf.
  pose proof (signed8_range m Hm). pose proof (bit7_range l Hl).
  destruct int; cbn [first_byte] in Hf;
    (split; [lia |]);
    unfold Qle, Qmult, inject_Z; cbn [Qnum Qden Qopp]; lia.
Qed.

(** X3.  [readTemperature] looks at nothing but the first byte and bit 7
    of the second: the low seven bits of the second byte and every further
    byte are ignored, whatever the width of [int]. *)
Theorem X3_decode_ignores_low_bits (int : IntWidth) (b0 b1 : Z)
    (rest : list Z) :
  LM75.readTemperature int (b0 :: b1 :: rest)
  = LM75.readTemperature int [b0 mod 256; Z.land (b1 mod 256) 128].
Proof.
  cbn [LM75.readTemperature].
  set (m := b0 mod 256). set (l := b1 mod 256).
  assert (Hm : 0 <= m < 256) by (apply Z.mod_pos_bound; lia).
  assert (Hl : 0 <= l < 256) by (apply Z.mod_pos_bound; lia).
  assert (Hland : Z.land l 128 = 128 * (l / 128)).
  { change 128 with (2 ^ 7) at 1.
    assert (Hbit : Z.land l (2 ^ 7) = Z.b2z (Z.testbit l 7) * 2 ^ 7).
    { apply Z.bits_inj'. intros n Hn. rewrite Z.land_spec.
      rewrite Z.mul_pow2_bits by lia.
      rewrite Z.pow2_bits_eqb by lia.
      destruct (Z.eqb_spec 7 n) as [<- | Hne].
      - replace (7 - 7) with 0 by lia.
        destruct (Z.testbit l 7); reflexivity.
      - rewrite andb_false_r.
        destruct (Z.testbit l 7); cbn [Z.b2z].
        + symmetry. destruct (Z.ltb_spec (n - 7) 0) as [Hlt | Hge].
          * apply Z.testbit_neg_r. exact Hlt.
          * change 1 with (2 ^ 0). rewrite Z.pow2_bits_eqb by lia.
            apply Z.eqb_neq. lia.
        + symmetry. apply Z.bits_0. }
    rewrite Hbit. rewrite Z.testbit_eqb by lia.
    change (2 ^ 7) with 128.
    pose proof (bit7_range l Hl) as Hq.
    assert (Hmod : (l / 128) mod 2 = l / 128) by (apply Z.mod_small; lia).
    rewrite Hmod.
    destruct (Z.eqb_spec (l / 128) 1) as [E | E]; cbn [Z.b2z]; lia. }
  assert (Hl' : 0 <= Z.land l 128 < 256).
  { rewrite Hland.
    pose proof (bit7_range l Hl).
    lia. }
  rewrite (Z.mod_small m 256 Hm), (Z.mod_small _ 256 Hl').
  rewrite (tempRaw_bytes int m l Hm Hl), (tempRaw_bytes int m _ Hm Hl').
  rewrite Hland. rewrite (Z.mul_comm 128), Z.div_mul by lia. reflexivity.
Qed.

(** X4.  Reading back the register format: for every half-degree count
    [h] from -256 to 255, the two register bytes that hold [h] are decoded
    to [h * 0.5] where [int] has 16 bits; where it has 32 bits this holds
    for [0 <= h] only, and a negative count is decoded to [(h + 512) * 0.5],
    256.0 degrees too high. *)
Theorem X4_decode_register (int : IntWidth) (h : Z)
    (Hh : -256 <= h <= 255) :
  LM75.readTemperature int (lm75_register h)
  = (inject_Z
       match int with
       | Int16 => h
       | Int32 => if h <? 0 then h + 512 else h
       end * (1 # 2))%Q.
Proof.
  unfold lm75_register. rewrite decode_formula.
  rewrite Z.mod_mod by lia.
  pose proof (Z.div_mod h 2 ltac:(lia)) as Hdm.
  pose proof (Z.mod_pos_bound h 2 ltac:(lia)) as Hr.
  set (q := h / 2) in *. set (r := h mod 2) in *.
  assert (Hq : -128 <= q <= 127) by lia.
  assert (Hm : q mod 256 = if q <? 0 then q + 256 else q).
  { destruct (Z.ltb_spec q 0) as [Hneg | Hpos].
    - symmetry. apply (Z.mod_unique q 256 (-1) (q + 256)); lia.
    - apply Z.mod_small. lia. }
  assert (Hb : (r * 128) mod 256 / 128 = r).
  { rewrite Z.mod_small by lia. apply Z.div_mul. lia. }
  rewrite Hm, Hb. f_equal. f_equal.
  destruct int; cbn [first_byte]; unfold signed8;
    destruct (Z.ltb_spec q 0); destruct (Z.ltb_spec h 0);
    try destruct (Z.ltb_spec (q + 256) 128);
    try destruct (Z.ltb_spec q 128); lia.
Qed.

Lemma X4_decode_register_witness :
  LM75.readTemperature Int16 (lm75_register (-51))
  = (inject_Z (-51) * (1 # 2))%Q /\
  LM75.readTemperature Int32 (lm75_register (-51))
  = (inject_Z 461 * (1 # 2))%Q.
Proof.
  split.
  - apply (X4_decode_register Int16 (-51)). lia.
  - apply (X4_decode_register Int32 (-51)). lia.
Defined.

(** X5.  Whether the failure value can also come from a successful read
    depends on the width of [int]: two bytes are decoded to exactly -100.0
    if and only if [int] has 16 bits, the first byte is 0x9C and bit 7 of
    the second is clear; where [int] has 32 bits no successful read equals
    the failure value. *)
Theorem X5_sentinel_collision (int : IntWidth) (b0 b1 : Z) (rest : list Z) :
  (LM75.readTemperature int (b0 :: b1 :: rest)
   == LM75.readTemperature int [])%Q
  <-> int = Int16 /\ b0 mod 256 = 156 /\ b1 mod 256 < 128.
Proof.
  rewrite decode_formula. cbn [LM75.readTemperature].
  set (m := b0 mod 256). set (l := b1 mod 256).
  assert (Hm : 0 <= m < 256) by (apply Z.mod_pos_bound; lia).
  assert (Hl : 0 <= l < 256) by (apply Z.mod_pos_bound; lia).
  pose proof (bit7_range l Hl) as Hq.
  assert (Hlow : l / 128 = 0 <-> l < 128).
  { split; intro H.
    - destruct (Z.lt_ge_cases l 128) as [Hlt | Hge]; [exact Hlt |].
      assert (1 <= l / 128) by (apply Z.div_le_lower_bound; lia). lia.
    - apply Z.div_small. lia. }
  unfold Qeq, Qmult, inject_Z, Qopp. cbn [Qnum Qden].
  destruct int; cbn [first_byte]; unfold signed8;
    destruct (Z.ltb_spec m 128); split; intro Heq;
    try (destruct Heq as (Hint & Hb0 & Hb1); try discriminate Hint);
    repeat split; try lia.
Qed.

(** ** Further properties: the remaining arrows of the state diagram *)

(** X6.  A tick that starts in [HEATING] keeps heating up to the bare
    target: in the LM75 sketch it stays [HEATING] exactly when
    [temp < targetTemp], ends in [STABILIZING] exactly when
    [targetTemp <= temp < overheatTemp] and in [OVERHEAT] exactly when
    [overheatTemp <= temp]; in the TMP36 sketch the same with
    [targetTemp <= temp <= overheatTemp] for [STABILIZING] and
    [overheatTemp < temp] for [OVERHEAT]. *)
Theorem X6_heating_tick (w : World) (temp : Q)
    (Hs : currentState w = HEATING) :
  let lm := currentState (exec (LM75.loop_body temp) w) in
  let tm := currentState (exec (TMP36.loop temp) w) in
  (((lm = HEATING <-> temp < LM75.targetTemp) /\
    (lm = STABILIZING <->
       LM75.targetTemp <= temp /\ temp < LM75.overheatTemp) /\
    (lm = OVERHEAT <-> LM75.overheatTemp <= temp)) /\
   ((tm = HEATING <-> temp < TMP36.targetTemp) /\
    (tm = STABILIZING <->
       TMP36.targetTemp <= temp /\ temp <= TMP36.overheatTemp) /\
    (tm = OVERHEAT <-> TMP36.overheatTemp < temp)))%Q.
Proof.
  intros lm tm. subst lm tm.
  rewrite lm75_loop_state, tmp36_loop_state, Hs.
  unfold lm75_next, tmp36_next. qsplit.
  all: repeat split; intros; try discriminate; try reflexivity; try lra.
Qed.

Lemma X6_heating_tick_witness :
  currentState (exec (LM75.loop_body 39) lm75_heating_world) = HEATING.
Proof.
  apply (proj2 (proj1 (proj1 (X6_heating_tick lm75_heating_world 39 eq_refl)))).
  unfold LM75.targetTemp, Qlt. simpl. lia.
Defined.

(** X7.  A tick that starts in [TARGET_REACHED] re-heats only below the
    deadband: in the LM75 sketch it ends in [HEATING] exactly when
    [temp < targetTemp - hysteresis], stays [TARGET_REACHED] exactly when
    [targetTemp - hysteresis <= temp < overheatTemp] and ends in [OVERHEAT]
    exactly when [overheatTemp <= temp]; in the TMP36 sketch it ends in
    [HEATING] exactly when [temp < targetTemp - 2], stays exactly when
    [targetTemp - 2 <= temp <= overheatTemp] and ends in [OVERHEAT] exactly
    when [overheatTemp < temp]. *)
Theorem X7_target_reached_tick (w : World) (temp : Q)
    (Hs : currentState w = TARGET_REACHED) :
  let lm := currentState (exec (LM75.loop_body temp) w) in
  let tm := currentState (exec (TMP36.loop temp) w) in
  (((lm = HEATING <-> temp < LM75.targetTemp - LM75.hysteresis) /\
    (lm = TARGET_REACHED <->
       LM75.targetTemp - LM75.hysteresis <= temp /\ temp < LM75.overheatTemp) /\
    (lm = OVERHEAT <-> LM75.overheatTemp <= temp)) /\
   ((tm = HEATING <-> temp < TMP36.targetTemp - 2) /\
    (tm = TARGET_REACHED <->
       TMP36.targetTemp - 2 <= temp /\ temp <= TMP36.overheatTemp) /\
    (tm = OVERHEAT <-> TMP36.overheatTemp < temp)))%Q.
Proof.
  intros lm tm. subst lm tm.
  rewrite lm75_loop_state, tmp36_loop_state, Hs.
  unfold lm75_next, tmp36_next. qsplit.
  all: repeat split; intros; try discriminate; try reflexivity; try lra.
Qed.

Lemma X7_target_reached_tick_witness :
  currentState
    (exec (LM75.loop_body 39) (LM75.run 10 41 stabilizing_world))
  = TARGET_REACHED.
Proof.
  refine (proj2 (proj1 (proj2 (proj1
            (X7_target_reached_tick (LM75.run 10 41 stabilizing_world) 39 _)))) _).
  - vm_compute. reflexivity.
  - unfold LM75.targetTemp, LM75.hysteresis, LM75.overheatTemp, Qle, Qlt.
    simpl. lia.
Defined.

(** X8.  [OVERHEAT] is entered for no other reason than the temperature:
    in the LM75 sketch a tick from another state ends in [OVERHEAT] if and
    only if [overheatTemp <= temp]; in the TMP36 sketch a tick from
    [HEATING], [STABILIZING] or [TARGET_REACHED] does so if and only if
    [overheatTemp < temp], and a tick from [IDLE] never does, whatever the
    temperature. *)
Theorem X8_overheat_entry (w : World) (temp : Q)
    (Hs : currentState w <> OVERHEAT) :
  let lm := currentState (exec (LM75.loop_body temp) w) in
  let tm := currentState (exec (TMP36.loop temp) w) in
  ((lm = OVERHEAT <-> LM75.overheatTemp <= temp) /\
   (currentState w = IDLE -> tm <> OVERHEAT) /\
   (currentState w <> IDLE ->
      (tm = OVERHEAT <-> TMP36.overheatTemp < temp)))%Q.
Proof.
  intros lm tm. subst lm tm.
  rewrite lm75_loop_state, tmp36_loop_state.
  unfold lm75_next, tmp36_next.
  destruct (currentState w); try (exfalso; apply Hs; reflexivity);
    destruct (dwell_over LM75.stabilizingTime w);
    destruct (dwell_over TMP36.stabilizingTime w); qsplit.
  all: repeat split; intros; try discriminate; try reflexivity;
    try congruence; try lra.
Qed.

Lemma X8_overheat_entry_witness :
  currentState (exec (TMP36.loop 1000) (exec TMP36.setup (boot (fun _ => 0))))
  <> OVERHEAT.
Proof.
  refine (proj1 (proj2 (X8_overheat_entry
            (exec TMP36.setup (boot (fun _ => 0))) 1000 _)) eq_refl).
  vm_compute. discriminate.
Defined.

(** X9.  One tick moves along the state diagram only: it either keeps the
    state or follows one of the arrows [lm75_edge] (LM75) or [tmp36_edge]
    (TMP36); in particular [TARGET_REACHED] is entered from [STABILIZING]
    only, and only by a tick whose timer reading is at least
    [stabilizingTime] past [stateStartTime], and [IDLE] is entered from
    [OVERHEAT] only. *)
Theorem X9_state_diagram (w : World) (temp : Q) :
  let lm := currentState (exec (LM75.loop_body temp) w) in
  let tm := currentState (exec (TMP36.loop temp) w) in
  let late := elapsed (wrap32 (clock w (reads w))) (stateStartTime w) in
  (lm = currentState w \/ lm75_edge (currentState w) lm = true) /\
  (tm = currentState w \/ tmp36_edge (currentState w) tm = true) /\
  (lm = TARGET_REACHED -> currentState w <> TARGET_REACHED ->
     currentState w = STABILIZING /\ LM75.stabilizingTime <= late) /\
  (tm = TARGET_REACHED -> currentState w <> TARGET_REACHED ->
     currentState w = STABILIZING /\ TMP36.stabilizingTime <= late).
Proof.
  intros lm tm late. subst lm tm late.
  rewrite lm75_loop_state, tmp36_loop_state.
  unfold lm75_next, tmp36_next, dwell_over,
    LM75.stabilizingTime, TMP36.stabilizingTime.
  destruct (Z.leb_spec 5000
              (elapsed (wrap32 (clock w (reads w))) (stateStartTime w)));
    destruct (currentState w); qsplit.
  all: repeat split; intros; try discriminate; try congruence;
    try lia; try (left; reflexivity); try (right; reflexivity).
Qed.

Lemma X9_state_diagram_witness :
  currentState stabilizing_world = STABILIZING /\
  LM75.stabilizingTime
  <= elapsed
       (wrap32 (clock (LM75.run 9 41 stabilizing_world)
                      (reads (LM75.run 9 41 stabilizing_world))))
       (stateStartTime (LM75.run 9 41 stabilizing_world)).
Proof.
  pose proof (proj1 (proj2 (proj2
                (X9_state_diagram (LM75.run 9 41 stabilizing_world) 41))))
    as H.
  destruct H as [_ H2].
  - vm_compute. reflexivity.
  - vm_compute. discriminate.
  - split; [vm_compute; reflexivity | exact H2].
Defined.

(** ** Further properties: the dwell timer *)

Lemma elapsed_rollover (t d : Z) :
  0 <= d < 2 ^ 32 -> elapsed (wrap32 (t + d)) (wrap32 t) = d.
Proof.
  intro Hd. unfold elapsed, wrap32.
  rewrite <- Zminus_mod. replace (t + d - t) with d by lia.
  apply Z.mod_small. exact Hd.
Qed.

(** X10.  The dwell test survives the roll-over of the 32-bit timer: if
    [STABILIZING] was entered at true time [t] and the tick reads the timer
    at true time [t + d] with [0 <= d < 2^32], then below the overheat
    limit the tick ends in [TARGET_REACHED] if and only if
    [stabilizingTime <= d], wherever the counter wrapped in between. *)
Theorem X10_dwell_across_rollover (w : World) (temp : Q) (t d : Z)
    (Hs : currentState w = STABILIZING)
    (Hstamp : stateStartTime w = wrap32 t)
    (Hnow : clock w (reads w) = t + d)
    (Hd : 0 <= d < 2 ^ 32) :
  ((temp < LM75.overheatTemp)%Q ->
     (currentState (exec (LM75.loop_body temp) w) = TARGET_REACHED
      <-> LM75.stabilizingTime <= d)) /\
  ((temp <= TMP36.overheatTemp)%Q ->
     (currentState (exec (TMP36.loop temp) w) = TARGET_REACHED
      <-> TMP36.stabilizingTime <= d)).
Proof.
  rewrite lm75_loop_state, tmp36_loop_state, Hs.
  unfold lm75_next, tmp36_next, dwell_over.
  rewrite Hstamp, Hnow, (elapsed_rollover t d Hd).
  unfold LM75.stabilizingTime, TMP36.stabilizingTime.
  destruct (Z.leb_spec 5000 d); qsplit.
  all: repeat split; intros; try discriminate; try reflexivity;
    try lra; try lia.
Qed.

Lemma X10_dwell_across_rollover_witness :
  let w := mkWorld STABILIZING (wrap32 (2 ^ 32 - 1000)) (fun _ => LOW)
             (fun _ => 2 ^ 32 - 1000 + 6000) 0%nat [] in
  stateStartTime w = 4294966296 /\
  wrap32 (clock w (reads w)) = 5000 /\
  currentState (exec (LM75.loop_body 41) w) = TARGET_REACHED.
Proof.
  split; [reflexivity |]. split; [reflexivity |].
  refine (proj2 (proj1 (X10_dwell_across_rollover
            (mkWorld STABILIZING (wrap32 (2 ^ 32 - 1000)) (fun _ => LOW)
               (fun _ => 2 ^ 32 - 1000 + 6000) 0%nat [])
            41 (2 ^ 32 - 1000) 6000 eq_refl eq_refl eq_refl _) _) _).
  - lia.
  - unfold LM75.overheatTemp, Qlt. simpl. lia.
  - unfold LM75.stabilizingTime. lia.
Defined.

Lemma lm75_waiting_tick (w : World) (temp : Q) :
  currentState w = STABILIZING ->
  (temp < LM75.overheatTemp)%Q ->
  elapsed (wrap32 (clock w (reads w))) (stateStartTime w)
  < LM75.stabilizingTime ->
  let w' := exec (LM75.loop_body temp) w in
  currentState w' = STABILIZING /\ stateStartTime w' = stateStartTime w /\
  reads w' = S (reads w) /\ clock w' = clock w.
Proof.
  intros Hs Hcool Hwait. from_state Hs.
  cbn [clock reads stateStartTime] in Hwait. unfold LM75.stabilizingTime in *.
  crunch; unfold LM75.stabilizingTime, TMP36.stabilizingTime in *;
    repeat split; try reflexivity; try lra; lia.
Qed.

Lemma tmp36_waiting_tick (w : World) (temp : Q) :
  currentState w = STABILIZING ->
  (temp <= TMP36.overheatTemp)%Q ->
  elapsed (wrap32 (clock w (reads w))) (stateStartTime w)
  < TMP36.stabilizingTime ->
  let w' := exec (TMP36.loop temp) w in
  currentState w' = STABILIZING /\ stateStartTime w' = stateStartTime w /\
  reads w' = S (reads w) /\ clock w' = clock w.
Proof.
  intros Hs Hcool Hwait. from_state Hs.
  cbn [clock reads stateStartTime] in Hwait. unfold TMP36.stabilizingTime in *.
  crunch; unfold LM75.stabilizingTime, TMP36.stabilizingTime in *;
    repeat split; try reflexivity; try lra; lia.
Qed.

(** X11.  At a constant temperature below the overheat limit,
    [STABILIZING] lasts exactly until the first tick whose timer reading is
    [stabilizingTime] or more past the stamp: while the first [k] readings
    all show less, the run is still [STABILIZING] after [k] ticks, with the
    stamp untouched and one reading consumed per tick; and if the next
    reading shows [stabilizingTime] or more, tick [k + 1] ends in
    [TARGET_REACHED].  Both sketches. *)
Theorem X11_dwell_length (w : World) (temp : Q) (k : nat)
    (Hs : currentState w = STABILIZING)
    (Hwait : forall i, (i < k)%nat ->
       elapsed (wrap32 (clock w (reads w + i))) (stateStartTime w) < 5000) :
  ((temp < LM75.overheatTemp)%Q ->
     let wk := LM75.run k temp w in
     (currentState wk = STABILIZING /\
      stateStartTime wk = stateStartTime w /\
      reads wk = (reads w + k)%nat) /\
     (5000 <= elapsed (wrap32 (clock w (reads w + k))) (stateStartTime w) ->
        currentState (LM75.run (S k) temp w) = TARGET_REACHED)) /\
  ((temp <= TMP36.overheatTemp)%Q ->
     let wk := TMP36.run k temp w in
     (currentState wk = STABILIZING /\
      stateStartTime wk = stateStartTime w /\
      reads wk = (reads w + k)%nat) /\
     (5000 <= elapsed (wrap32 (clock w (reads w + k))) (stateStartTime w) ->
        currentState (TMP36.run (S k) temp w) = TARGET_REACHED)).
Proof.
  split; intro Hcool.
  - assert (Hk : forall n, (n <= k)%nat ->
              currentState (LM75.run n temp w) = STABILIZING /\
              stateStartTime (LM75.run n temp w) = stateStartTime w /\
              reads (LM75.run n temp w) = (reads w + n)%nat /\
              clock (LM75.run n temp w) = clock w).
    { induction n as [| n IH]; intro Hn.
      - cbn [LM75.run]. rewrite Nat.add_0_r. repeat split; assumption.
      - destruct (IH ltac:(lia)) as (H1 & H2 & H3 & H4).
        cbn [LM75.run].
        destruct (lm75_waiting_tick (LM75.run n temp w) temp H1 Hcool)
          as (G1 & G2 & G3 & G4).
        { rewrite H2, H3, H4. unfold LM75.stabilizingTime.
          apply Hwait. lia. }
        rewrite G1, G2, G3, G4, H2, H3, H4.
        repeat split; try reflexivity. lia. }
    destruct (Hk k (Nat.le_refl k)) as (H1 & H2 & H3 & H4).
    cbn zeta. split; [repeat split; assumption |].
    intro Hlate. cbn [LM75.run]. rewrite lm75_loop_state, H1.
    unfold lm75_next, dwell_over. rewrite H2, H3, H4.
    unfold LM75.stabilizingTime.
    destruct (Z.leb_spec 5000
                (elapsed (wrap32 (clock w (reads w + k))) (stateStartTime w)));
      [| lia].
    qsplit; try reflexivity; lra.
  - assert (Hk : forall n, (n <= k)%nat ->
              currentState (TMP36.run n temp w) = STABILIZING /\
              stateStartTime (TMP36.run n temp w) = stateStartTime w /\
              reads (TMP36.run n temp w) = (reads w + n)%nat /\
              clock (TMP36.run n temp w) = clock w).
    { induction n as [| n IH]; intro Hn.
      - cbn [TMP36.run]. rewrite Nat.add_0_r. repeat split; assumption.
      - destruct (IH ltac:(lia)) as (H1 & H2 & H3 & H4).
        cbn [TMP36.run].
        destruct (tmp36_waiting_tick (TMP36.run n temp w) temp H1 Hcool)
          as (G1 & G2 & G3 & G4).
        { rewrite H2, H3, H4. unfold TMP36.stabilizingTime.
          apply Hwait. lia. }
        rewrite G1, G2, G3, G4, H2, H3, H4.
        repeat split; try reflexivity. lia. }
    destruct (Hk k (Nat.le_refl k)) as (H1 & H2 & H3 & H4).
    cbn zeta. split; [repeat split; assumption |].
    intro Hlate. cbn [TMP36.run]. rewrite tmp36_loop_state, H1.
    unfold tmp36_next, dwell_over. rewrite H2, H3, H4.
    unfold TMP36.stabilizingTime.
    destruct (Z.leb_spec 5000
                (elapsed (wrap32 (clock w (reads w + k))) (stateStartTime w)));
      [| lia].
    qsplit; try reflexivity; lra.
Qed.

Lemma X11_dwell_length_witness :
  currentState (LM75.run 10 41 stabilizing_world) = TARGET_REACHED.
Proof.
  refine (proj2 (proj1 (X11_dwell_length stabilizing_world 41 9 eq_refl _) _) _).
  - intros i Hi.
    do 9 (destruct i as [| i]; [vm_compute; reflexivity |]). lia.
  - unfold LM75.overheatTemp, Qlt. simpl. lia.
  - vm_compute. discriminate.
Defined.

(** ** Further properties: what holds between any two iterations *)

Lemma lm75_heater_by_start (w : World) (temp : Q) :
  pins (exec (LM75.loop_body temp) w) LM75.heaterPin
  = match currentState w with
    | IDLE => pins w LM75.heaterPin
    | HEATING => HIGH
    | _ => LOW
    end.
Proof. destruct w as [s t p c r tr]. destruct s; crunch; reflexivity. Qed.

Lemma lm75_led_by_start (w : World) (temp : Q) :
  pins (exec (LM75.loop_body temp) w) LM75.ledPin
  = match currentState w with
    | OVERHEAT => if Qltb temp LM75.targetTemp then LOW else HIGH
    | _ => pins w LM75.ledPin
    end.
Proof. destruct w as [s t p c r tr]. destruct s; crunch; reflexivity. Qed.

Lemma tmp36_heater_by_start (w : World) (temp : Q) :
  pins (exec (TMP36.loop temp) w) TMP36.HEATER_PIN
  = match currentState w with
    | HEATING => HIGH
    | _ => LOW
    end.
Proof. destruct w as [s t p c r tr]. destruct s; crunch; reflexivity. Qed.

Lemma wrap32_range (x : Z) : 0 <= wrap32 x < 2 ^ 32.
Proof. unfold wrap32. apply Z.mod_pos_bound. lia. Qed.

Lemma lm75_stamp_range (w : World) (temp : Q) :
  0 <= stateStartTime w < 2 ^ 32 ->
  0 <= stateStartTime (exec (LM75.loop_body temp) w) < 2 ^ 32.
Proof.
  destruct w as [s t p c r tr]. cbn [stateStartTime]. intro Ht.
  destruct s; crunch; try exact Ht; apply wrap32_range.
Qed.

Lemma tmp36_stamp_range (w : World) (temp : Q) :
  0 <= stateStartTime w < 2 ^ 32 ->
  0 <= stateStartTime (exec (TMP36.loop temp) w) < 2 ^ 32.
Proof.
  destruct w as [s t p c r tr]. cbn [stateStartTime]. intro Ht.
  destruct s; crunch; try exact Ht; apply wrap32_range.
Qed.

(** X12.  LM75 sketch, between any two iterations of a run that began with
    reset and [setup]: the heater pin is high only in [HEATING],
    [STABILIZING] or [OVERHEAT] (so it is low throughout [IDLE] and
    [TARGET_REACHED]); the warning LED is high only in [OVERHEAT]; and
    [stateStartTime] is a 32-bit value. *)
Theorem X12_lm75_invariant (w : World) (Hr : lm75_reachable w) :
  (pins w LM75.heaterPin = HIGH ->
     currentState w = HEATING \/ currentState w = STABILIZING \/
     currentState w = OVERHEAT) /\
  (pins w LM75.ledPin = HIGH -> currentState w = OVERHEAT) /\
  0 <= stateStartTime w < 2 ^ 32.
Proof.
  induction Hr as [clk | w int rx Hr (IHh & IHl & IHt)].
  - split; [| split]; [intro H; cbv in H; discriminate H ..|].
    apply wrap32_range.
  - unfold LM75.loop. generalize (LM75.readTemperature int rx). intro temp.
    split; [| split].
    + rewrite lm75_heater_by_start, lm75_loop_state. unfold lm75_next.
      destruct (currentState w);
        destruct (dwell_over LM75.stabilizingTime w); qsplit;
        intro H; try discriminate H; try lra; auto;
        destruct (IHh H) as [E | [E | E]]; discriminate E.
    + rewrite lm75_led_by_start, lm75_loop_state. unfold lm75_next.
      destruct (currentState w);
        destruct (dwell_over LM75.stabilizingTime w); qsplit;
        intro H; try discriminate H; try lra; auto;
        discriminate (IHl H).
    + apply lm75_stamp_range. exact IHt.
Qed.

Lemma X12_lm75_invariant_witness :
  let w := exec (LM75.loop Int16 [35; 0])
             (exec LM75.setup (boot (fun _ => 0))) in
  0 <= stateStartTime w < 2 ^ 32.
Proof.
  apply (X12_lm75_invariant
           (exec (LM75.loop Int16 [35; 0])
              (exec LM75.setup (boot (fun _ => 0))))).
  apply lm75_after_loop. apply lm75_after_setup.
Defined.

(** X13.  TMP36 sketch, between any two iterations of a run that began
    with reset and [setup]: the heater pin is high only in [HEATING],
    [STABILIZING] or [OVERHEAT], and [stateStartTime] is a 32-bit value. *)
Theorem X13_tmp36_invariant (w : World) (Hr : tmp36_reachable w) :
  (pins w TMP36.HEATER_PIN = HIGH ->
     currentState w = HEATING \/ currentState w = STABILIZING \/
     currentState w = OVERHEAT) /\
  0 <= stateStartTime w < 2 ^ 32.
Proof.
  induction Hr as [clk | w temp Hr (IHh & IHt)].
  - split; [intro H; cbv in H; discriminate H |]. apply wrap32_range.
  - split.
    + rewrite tmp36_heater_by_start, tmp36_loop_state. unfold tmp36_next.
      destruct (currentState w);
        destruct (dwell_over TMP36.stabilizingTime w); qsplit;
        intro H; try discriminate H; try lra; auto.
    + apply tmp36_stamp_range. exact IHt.
Qed.

Lemma X13_tmp36_invariant_witness :
  let w := exec (TMP36.loop 20) (exec TMP36.setup (boot (fun _ => 0))) in
  0 <= stateStartTime w < 2 ^ 32.
Proof.
  apply (X13_tmp36_invariant
           (exec (TMP36.loop 20) (exec TMP36.setup (boot (fun _ => 0))))).
  apply tmp36_after_loop. apply tmp36_after_setup.
Defined.

(** X14.  Overheat protection takes at most two ticks from any world
    whatever: after two consecutive iterations with readings at the
    overheat limit or above, the LM75 sketch is in [OVERHEAT] with the
    heater pin low and the LED high; after two consecutive iterations with
    readings above the limit the TMP36 sketch has the heater pin low, and
    is in [OVERHEAT] unless it started in [IDLE]. *)
Theorem X14_overheat_latency (w : World) (t1 t2 : Q) :
  ((LM75.overheatTemp <= t1)%Q -> (LM75.overheatTemp <= t2)%Q ->
     let w2 := exec (LM75.loop_body t2) (exec (LM75.loop_body t1) w) in
     currentState w2 = OVERHEAT /\
     pins w2 LM75.heaterPin = LOW /\ pins w2 LM75.ledPin = HIGH) /\
  ((TMP36.overheatTemp < t1)%Q -> (TMP36.overheatTemp < t2)%Q ->
     let w2 := exec (TMP36.loop t2) (exec (TMP36.loop t1) w) in
     pins w2 TMP36.HEATER_PIN = LOW /\
     (currentState w <> IDLE -> currentState w2 = OVERHEAT)).
Proof.
  split; intros H1 H2 w2; subst w2.
  - assert (E1 : currentState (exec (LM75.loop_body t1) w) = OVERHEAT).
    { rewrite lm75_loop_state. unfold lm75_next.
      destruct (currentState w);
        destruct (dwell_over LM75.stabilizingTime w); qsplit;
        try reflexivity; lra. }
    rewrite lm75_loop_state, lm75_heater_by_start, lm75_led_by_start, E1.
    unfold lm75_next. qsplit; repeat split; try reflexivity; lra.
  - assert (E1 : currentState (exec (TMP36.loop t1) w)
                 = match currentState w with IDLE => IDLE | _ => OVERHEAT end).
    { rewrite tmp36_loop_state. unfold tmp36_next.
      destruct (currentState w);
        destruct (dwell_over TMP36.stabilizingTime w); qsplit;
        try reflexivity; lra. }
    rewrite tmp36_loop_state, tmp36_heater_by_start, E1.
    unfold tmp36_next.
    destruct (currentState w); qsplit; split; intros;
      try reflexivity; try congruence; lra.
Qed.

Lemma X14_overheat_latency_witness :
  pins (exec (LM75.loop_body 50) (exec (LM75.loop_body 51) lm75_heating_world))
       LM75.heaterPin = LOW.
Proof.
  refine (proj1 (proj2 (proj1 (X14_overheat_latency lm75_heating_world 51 50)
                          _ _))).
  - unfold LM75.overheatTemp, Qle. simpl. lia.
  - unfold LM75.overheatTemp, Qle. simpl. lia.
Defined.

(** ** Further properties: a sensor that stays silent *)

Lemma lm75_dead_tick (w : World) (int : IntWidth) (rx : list Z) :
  (length rx < 2)%nat ->
  exec (LM75.loop int rx) w = exec (LM75.loop_body (- (100))) w.
Proof.
  intro H. unfold LM75.loop. rewrite (lm75_sentinel_on_failure int rx H).
  reflexivity.
Qed.

Lemma lm75_dead_tick_state (w : World) :
  currentState (exec (LM75.loop_body (- (100))) w)
  = match currentState w with
    | IDLE | HEATING | TARGET_REACHED => HEATING
    | OVERHEAT => IDLE
    | STABILIZING =>
        if dwell_over LM75.stabilizingTime w then TARGET_REACHED
        else STABILIZING
    end.
Proof.
  rewrite lm75_loop_state.
  destruct (currentState w); reflexivity.
Qed.

Lemma lm75_dead_heating (int : IntWidth) (rxs : list (list Z)) :
  Forall (fun rx => (length rx < 2)%nat) rxs ->
  forall w, currentState w = HEATING -> pins w LM75.heaterPin = HIGH ->
  currentState (lm75_feed int rxs w) = HEATING /\
  pins (lm75_feed int rxs w) LM75.heaterPin = HIGH.
Proof.
  induction 1 as [| rx rest Hrx Hrest IH]; intros w Hs Hp.
  - split; assumption.
  - cbn [lm75_feed]. rewrite (lm75_dead_tick w int rx Hrx). apply IH.
    + rewrite lm75_dead_tick_state, Hs. reflexivity.
    + rewrite lm75_heater_by_start, Hs. reflexivity.
Qed.

(** X15.  LM75 sketch with a sensor that stays silent (every read delivers
    fewer than two bytes): from every state but [STABILIZING], after three
    iterations the controller is in [HEATING] with the heater pin high, and
    it stays so for as long as the reads keep failing; this includes a
    start in [OVERHEAT], whose alarm the first failed read clears. *)
Theorem X15_dead_sensor (w : World) (int : IntWidth) (rxs : list (list Z))
    (Hdead : Forall (fun rx => (length rx < 2)%nat) rxs)
    (Hs : currentState w <> STABILIZING)
    (Hlen : (3 <= length rxs)%nat) :
  currentState (lm75_feed int rxs w) = HEATING /\
  pins (lm75_feed int rxs w) LM75.heaterPin = HIGH.
Proof.
  destruct rxs as [| r1 [| r2 [| r3 rest]]]; cbn [length] in Hlen; try lia.
  inversion Hdead as [| ? ? D1 Hd1]; subst.
  inversion Hd1 as [| ? ? D2 Hd2]; subst.
  inversion Hd2 as [| ? ? D3 Hd3]; subst.
  cbn [lm75_feed].
  rewrite (lm75_dead_tick w int r1 D1).
  set (w1 := exec (LM75.loop_body (- (100))) w).
  rewrite (lm75_dead_tick w1 int r2 D2).
  set (w2 := exec (LM75.loop_body (- (100))) w1).
  rewrite (lm75_dead_tick w2 int r3 D3).
  assert (E1 : currentState w1 = HEATING \/ currentState w1 = IDLE).
  { unfold w1. rewrite lm75_dead_tick_state.
    destruct (currentState w); auto. exfalso. apply Hs. reflexivity. }
  assert (E2 : currentState w2 = HEATING).
  { unfold w2. rewrite lm75_dead_tick_state.
    destruct E1 as [E | E]; rewrite E; reflexivity. }
  apply (lm75_dead_heating int rest Hd3).
  - rewrite lm75_dead_tick_state, E2. reflexivity.
  - rewrite lm75_heater_by_start, E2. reflexivity.
Qed.

Lemma X15_dead_sensor_witness :
  let hot := exec (LM75.loop_body 51) lm75_heating_world in
  currentState hot = OVERHEAT /\
  currentState (lm75_feed Int16 [[]; [7]; []; []] hot) = HEATING /\
  pins (lm75_feed Int16 [[]; [7]; []; []] hot) LM75.heaterPin = HIGH.
Proof.
  split; [reflexivity |].
  apply (X15_dead_sensor (exec (LM75.loop_body 51) lm75_heating_world)
           Int16 [[]; [7]; []; []]).
  - repeat constructor.
  - vm_compute. discriminate.
  - simpl. lia.
Defined.

(** ** Further properties: pins and switching *)

(** X16.  An iteration of [loop] touches no pin but its own: the LM75
    sketch leaves every pin other than the heater pin and the LED pin at
    its level, and the LED pin too unless the iteration starts in
    [OVERHEAT]; the TMP36 sketch leaves every pin other than the heater pin
    at its level. *)
Theorem X16_pin_frame (w : World) (temp : Q) (p : Z) :
  (p <> LM75.heaterPin -> p <> LM75.ledPin ->
     pins (exec (LM75.loop_body temp) w) p = pins w p) /\
  (currentState w <> OVERHEAT ->
     pins (exec (LM75.loop_body temp) w) LM75.ledPin = pins w LM75.ledPin) /\
  (p <> TMP36.HEATER_PIN ->
     pins (exec (TMP36.loop temp) w) p = pins w p).
Proof.
  split; [| split].
  - intros Hh Hl. apply Z.eqb_neq in Hh, Hl.
    destruct w as [s t p0 c r tr]. cbn [pins].
    destruct s; crunch; rewrite ?Hh, ?Hl; reflexivity.
  - intro Hs. rewrite lm75_led_by_start.
    destruct (currentState w); try reflexivity.
    exfalso. apply Hs. reflexivity.
  - intro Hh. apply Z.eqb_neq in Hh.
    destruct w as [s t p0 c r tr]. cbn [pins].
    destruct s; crunch; rewrite ?Hh; reflexivity.
Qed.

Lemma X16_pin_frame_witness :
  pins (exec (LM75.loop_body 51) lm75_heating_world) 7
  = pins lm75_heating_world 7.
Proof.
  apply (proj1 (X16_pin_frame lm75_heating_world 51 7)).
  - unfold LM75.heaterPin. lia.
  - unfold LM75.ledPin. lia.
Defined.

Section Switching.

Variable f : nat -> State.
Variable rank : State -> nat.
Hypothesis Hstep : forall n, f (S n) = f n \/ (rank (f (S n)) < rank (f n))%nat.

Lemma changes_bounded (n : nat) :
  (changes f n + rank (f n) <= rank (f 0%nat))%nat.
Proof.
  induction n as [| n IH]; cbn [changes]; [lia |].
  destruct (Hstep n) as [E | L].
  - rewrite E.
    replace (State_eqb (f n) (f n)) with true
      by (symmetry; apply State_eqb_eq; reflexivity).
    lia.
  - destruct (State_eqb (f (S n)) (f n)); lia.
Qed.

End Switching.

Lemma lm75_rank_le_2 (temp : Q) (s : State) : (lm75_rank temp s <= 2)%nat.
Proof.
  unfold lm75_rank.
  destruct s, (Qgeb temp LM75.overheatTemp), (Qgeb temp LM75.targetTemp),
    (Qltb temp (LM75.targetTemp - LM75.hysteresis)); lia.
Qed.

Lemma tmp36_rank_le_2 (temp : Q) (s : State) : (tmp36_rank temp s <= 2)%nat.
Proof.
  unfold tmp36_rank.
  destruct s, (Qgtb temp TMP36.overheatTemp), (Qgeb temp TMP36.targetTemp),
    (Qltb temp (TMP36.targetTemp - 5)), (Qltb temp (TMP36.targetTemp - 2));
    lia.
Qed.

(** X17.  At a constant temperature the state changes at most twice, in
    any run of either sketch, from any world and whatever the timer does:
    among any number of ticks, at most two end in another state than they
    started in. *)
Theorem X17_at_most_two_changes (temp : Q) (w : World) (n : nat) :
  (changes (fun k => currentState (LM75.run k temp w)) n <= 2)%nat /\
  (changes (fun k => currentState (TMP36.run k temp w)) n <= 2)%nat.
Proof.
  split.
  - pose proof (changes_bounded (fun k => currentState (LM75.run k temp w))
                  (lm75_rank temp) (lm75_run_step temp w) n) as H.
    pose proof (lm75_rank_le_2 temp (currentState (LM75.run 0 temp w))).
    cbn beta in H. lia.
  - pose proof (changes_bounded (fun k => currentState (TMP36.run k temp w))
                  (tmp36_rank temp) (tmp36_run_step temp w) n) as H.
    pose proof (tmp36_rank_le_2 temp (currentState (TMP36.run 0 temp w))).
    cbn beta in H. lia.
Qed.
